(** * ConsoleHistory (src/console/history.ts): a shallow embedding

    The console history manager keeps a vector of submitted lines
    ([_history]), a filtered copy of it used during one navigation
    session ([_filtered]), a cursor into the filtered copy, and the
    kernel that supplies the initial history asynchronously.

    Conventions of the embedding:
    - a JavaScript [number] used as an index is a [Z];
    - [null] / [undefined] is [None];
    - a method is a function from the object's fields to the new fields
      and a completion: either the returned value or a thrown
      [TypeError] (a property read on [null]).  Field writes made
      before the throw stay in the returned state;
    - a string is a [string]: [length], [slice] and equality work on
      its characters one by one, as they do on the code units of a
      JavaScript string;
    - a kernel object is known by its identity only (a [nat]);
    - the promise returned by [requestHistory] is an entry of the list
      of pending requests; its fulfilment runs the callback
      [v => this.onHistory(v)]. *)

From Stdlib Require Import ZArith List String Bool Lia.
Import ListNotations.
Open Scope string_scope.
Open Scope list_scope.
Open Scope Z_scope.

Set Implicit Arguments.

(** ** The phosphor [Vector] operations the class uses *)

Module Vector.

Definition t := list string.

(** [new Vector<string>()]. *)
Definition empty : t := [].

(** [v.length]. *)
Definition length (v : t) : Z := Z.of_nat (List.length v).

(** [v.at(i)]: the array element at index [i]; [undefined] outside
    of the array, in particular at a negative index. *)
Definition at_ (v : t) (i : Z) : option string :=
  if i <? 0 then None else nth_error v (Z.to_nat i).

(** [v.back]: the last element, [undefined] for an empty vector. *)
Definition back (v : t) : option string := at_ v (length v - 1).

(** [v.pushBack(x)]. *)
Definition pushBack (v : t) (x : string) : t := v ++ [x].

End Vector.

(** ** JavaScript strings *)

(** [str.slice(0, n)] for [n >= 0]: the first [n] characters, the whole
    string when it is shorter. *)
Definition slice0 (n : nat) (str : string) : string := String.substring 0 n str.

(** The predicate handed to [filter] in [setFilter]:
    [str => filterStr == str.slice(0, filterStr.length)]. *)
Definition matches (filterStr str : string) : bool :=
  String.eqb filterStr (slice0 (String.length filterStr) str).

(** The truthiness of a [string] argument that may be absent: the empty
    string, [null] and [undefined] are falsy. *)
Definition truthy (item : option string) : bool :=
  match item with
  | None => false
  | Some x => negb (String.eqb x "")
  end.

(** [a !== b] on values that are strings or [undefined]. *)
Definition strict_neq (a b : option string) : bool :=
  match a, b with
  | Some x, Some y => negb (String.eqb x y)
  | None, None => false
  | _, _ => true
  end.

(** ** The object *)

Definition Kernel := nat.

(** One record of a history reply: [[session, line, input]]. *)
Definition HistoryEntry := (Z * Z * string)%type.

(** [value.content.history] of a history reply message. *)
Definition HistoryReply := list HistoryEntry.

(** [(value.content.history[i] as string[])[2]]. *)
Definition input_of (e : HistoryEntry) : string := snd e.

Record ConsoleHistory := mkConsoleHistory {
  _cursor : Z;
  _hasSession : bool;
  _history : option Vector.t;
  _kernel : option Kernel;
  _placeholder : string;
  _filtered : option Vector.t
}.

Definition set_cursor (c : Z) (h : ConsoleHistory) : ConsoleHistory :=
  mkConsoleHistory c (_hasSession h) (_history h) (_kernel h)
                   (_placeholder h) (_filtered h).

Definition set_hasSession (b : bool) (h : ConsoleHistory) : ConsoleHistory :=
  mkConsoleHistory (_cursor h) b (_history h) (_kernel h)
                   (_placeholder h) (_filtered h).

Definition set_history (v : option Vector.t) (h : ConsoleHistory) : ConsoleHistory :=
  mkConsoleHistory (_cursor h) (_hasSession h) v (_kernel h)
                   (_placeholder h) (_filtered h).

Definition set_kernel (k : option Kernel) (h : ConsoleHistory) : ConsoleHistory :=
  mkConsoleHistory (_cursor h) (_hasSession h) (_history h) k
                   (_placeholder h) (_filtered h).

Definition set_placeholder (p : string) (h : ConsoleHistory) : ConsoleHistory :=
  mkConsoleHistory (_cursor h) (_hasSession h) (_history h) (_kernel h)
                   p (_filtered h).

Definition set_filtered (v : option Vector.t) (h : ConsoleHistory) : ConsoleHistory :=
  mkConsoleHistory (_cursor h) (_hasSession h) (_history h) (_kernel h)
                   (_placeholder h) v.

(** How a method call ends. *)
Inductive completion (A : Type) : Type :=
| Returned (a : A)
| TypeError.
Arguments TypeError {A}.

(** The field initialisers of the class followed by the first statement
    of the constructor, [this._history = new Vector<string>()]. *)
Definition fresh : ConsoleHistory :=
  mkConsoleHistory 0 false (Some Vector.empty) None "" None.

(** [get isDisposed]. *)
Definition isDisposed (h : ConsoleHistory) : bool :=
  match _history h with
  | None => true
  | Some _ => false
  end.

(** ** Method bodies

    A method body is a computation over the fields that may throw. *)

Definition M (A : Type) : Type := ConsoleHistory -> ConsoleHistory * completion A.

Definition ret {A : Type} (a : A) : M A := fun h => (h, Returned a).

Definition bind {A B : Type} (m : M A) (f : A -> M B) : M B :=
  fun h =>
    match m h with
    | (h', Returned a) => f a h'
    | (h', TypeError) => (h', TypeError)
    end.

Notation "x <- m ;; k" := (bind m (fun x => k))
  (at level 61, m at next level, right associativity).
Notation "m ;; k" := (bind m (fun _ => k))
  (at level 61, right associativity).

(** Read a field. *)
Definition get {A : Type} (field : ConsoleHistory -> A) : M A :=
  fun h => (h, Returned (field h)).

(** Assign a field. *)
Definition put (assign : ConsoleHistory -> ConsoleHistory) : M unit :=
  fun h => (assign h, Returned tt).

(** Read a field in order to access a property of its value: a
    [TypeError] when the field holds [null]. *)
Definition deref {A : Type} (field : ConsoleHistory -> option A) : M A :=
  fun h =>
    match field h with
    | Some a => (h, Returned a)
    | None => (h, TypeError)
    end.

(** The state and the completion of a call. *)
Definition state_of {A : Type} (r : ConsoleHistory * completion A) : ConsoleHistory :=
  fst r.
Definition result_of {A : Type} (r : ConsoleHistory * completion A) : completion A :=
  snd r.

(** [newValue === this._kernel]: identity of kernel objects, [null]
    (the only absent kernel modelled) being identical to itself only. *)
Definition same_kernel (a b : option Kernel) : bool :=
  match a, b with
  | Some x, Some y => Nat.eqb x y
  | None, None => true
  | _, _ => false
  end.

(** [set kernel(newValue)].  The value returned is the kernel whose
    [requestHistory] was called, if any: the promise it returned is
    pending from then on. *)
Definition setKernel (newValue : option Kernel) : M (option Kernel) :=
  old <- get _kernel ;;
  if same_kernel newValue old then ret None
  else
    put (set_kernel newValue) ;;
    k <- get _kernel ;;
    match k with
    | None =>
        put (set_history (Some Vector.empty)) ;;
        ret None
    | Some k => ret (Some k)
    end.

(** [dispose()].  [clearSignalData(this)] touches no field. *)
Definition dispose : M unit :=
  disposed <- get isDisposed ;;
  if disposed then ret tt
  else put (set_history None).

(** [setFilter(filterStr)].  phosphor's [filter] asks its first
    argument for an iterator, which throws on [null]. *)
Definition setFilter (filterStr : string) : M unit :=
  v <- deref _history ;;
  put (set_filtered (Some (List.filter (matches filterStr) v))).

(** [back(placeholder)].  The promise returned is already resolved;
    the value it holds is the result.  [this._filtered.at] is read
    before the argument [--this._cursor] is evaluated. *)
Definition back (placeholder : string) : M (option string) :=
  hasSession <- get _hasSession ;;
  (if negb hasSession then
     put (set_hasSession true) ;;
     put (set_placeholder placeholder) ;;
     setFilter placeholder ;;
     f <- deref _filtered ;;
     put (set_cursor (Vector.length f))
   else ret tt) ;;
  f <- deref _filtered ;;
  c <- get _cursor ;;
  put (set_cursor (c - 1)) ;;
  c <- get _cursor ;;
  let content := Vector.at_ f c in
  put (set_cursor (Z.max 0 c)) ;;
  ret content.

(** [forward(placeholder)]. *)
Definition forward (placeholder : string) : M (option string) :=
  hasSession <- get _hasSession ;;
  (if negb hasSession then
     put (set_hasSession true) ;;
     put (set_placeholder placeholder) ;;
     setFilter placeholder ;;
     f <- deref _filtered ;;
     put (set_cursor (Vector.length f))
   else ret tt) ;;
  f <- deref _filtered ;;
  c <- get _cursor ;;
  put (set_cursor (c + 1)) ;;
  c <- get _cursor ;;
  let content := Vector.at_ f c in
  f <- deref _filtered ;;
  put (set_cursor (Z.min (Vector.length f) c)) ;;
  ret content.

(** [reset()]. *)
Definition reset : M unit :=
  v <- deref _history ;;
  put (set_cursor (Vector.length v)) ;;
  put (set_hasSession false) ;;
  put (set_placeholder "").

(** [push(item)].  [item] may be absent; [&&] does not evaluate
    [this._history.back] when [item] is falsy. *)
Definition push (item : option string) : M unit :=
  match item with
  | Some x =>
      if truthy item then
        v <- deref _history ;;
        if strict_neq item (Vector.back v) then
          put (set_history (Some (Vector.pushBack v x)))
        else ret tt
      else ret tt
  | None => ret tt
  end ;;
  reset.

(** The [for] loop of [onHistory], from index [i] on, [entries] being
    the records not visited yet and [last] the local variable. *)
Fixpoint onHistory_loop (entries : list HistoryEntry) (last : string) : M unit :=
  match entries with
  | [] => ret tt
  | e :: rest =>
      let current := input_of e in
      if negb (String.eqb current last) then
        v <- deref _history ;;
        put (set_history (Some (Vector.pushBack v current))) ;;
        onHistory_loop rest current
      else onHistory_loop rest last
  end.

(** [onHistory(value)]. *)
Definition onHistory (value : HistoryReply) : M unit :=
  put (set_history (Some Vector.empty)) ;;
  onHistory_loop value "" ;;
  v <- deref _history ;;
  put (set_cursor (Vector.length v)).

(** ** The object and its pending history requests

    [pending] lists, oldest first, the kernels whose [requestHistory]
    promise has not settled yet.  Each of these promises carries the
    callback [v => this.onHistory(v)] and no rejection handler. *)

Record System := mkSystem {
  nav : ConsoleHistory;
  pending : list Kernel
}.

Inductive event : Type :=
| SetKernel (newValue : option Kernel)
| Dispose
| Back (placeholder : string)
| Forward (placeholder : string)
| Push (item : option string)
| Reset
| Fulfil (i : nat) (value : HistoryReply)
| Reject (i : nat).

(** Remove the [i]-th element. *)
Fixpoint remove_nth {A : Type} (i : nat) (l : list A) : list A :=
  match i, l with
  | _, [] => []
  | O, _ :: l' => l'
  | S i', x :: l' => x :: remove_nth i' l'
  end.

Definition step (ev : event) (s : System) : System :=
  match ev with
  | SetKernel newValue =>
      match setKernel newValue (nav s) with
      | (h, Returned (Some k)) => mkSystem h (pending s ++ [k])
      | (h, _) => mkSystem h (pending s)
      end
  | Dispose => mkSystem (state_of (dispose (nav s))) (pending s)
  | Back p => mkSystem (state_of (back p (nav s))) (pending s)
  | Forward p => mkSystem (state_of (forward p (nav s))) (pending s)
  | Push item => mkSystem (state_of (push item (nav s))) (pending s)
  | Reset => mkSystem (state_of (reset (nav s))) (pending s)
  | Fulfil i value =>
      match nth_error (pending s) i with
      | Some _ => mkSystem (state_of (onHistory value (nav s)))
                           (remove_nth i (pending s))
      | None => s
      end
  | Reject i => mkSystem (nav s) (remove_nth i (pending s))
  end.

(** Events in the order they happen. *)
Definition run (evs : list event) (s : System) : System :=
  fold_left (fun s ev => step ev s) evs s.

(** [new ConsoleHistory(options)]: [kernel] is [options.kernel] when
    [options] is given and has one. *)
Definition construct (kernel : option Kernel) : System :=
  match kernel with
  | Some k => step (SetKernel (Some k)) (mkSystem fresh [])
  | None => mkSystem fresh []
  end.

(** ** The specification's words *)

(** The snapshot deduplication of the specification: a running "last
    kept" value; an entry is kept iff it differs from it. *)
Fixpoint spec_dedup (lastKept : string) (entries : list string) : list string :=
  match entries with
  | [] => []
  | e :: rest =>
      if String.eqb e lastKept then spec_dedup lastKept rest
      else e :: spec_dedup e rest
  end.

(** "Starts with": the entry truncated to the placeholder's length
    equals the placeholder. *)
Definition starts_with (P entry : string) : Prop :=
  String.substring 0 (String.length P) entry = P.

(** No two adjacent entries are equal. *)
Fixpoint no_adjacent_dup (l : list string) : Prop :=
  match l with
  | [] => True
  | x :: rest =>
      match rest with
      | [] => True
      | y :: _ => x <> y /\ no_adjacent_dup rest
      end
  end.

(** ** Sequences of calls *)

(** Successive calls of one navigation method ([back] or [forward]),
    one per argument, with the completion of each. *)
Fixpoint calls (method : string -> M (option string)) (args : list string)
               (h : ConsoleHistory)
  : ConsoleHistory * list (completion (option string)) :=
  match args with
  | [] => (h, [])
  | q :: rest =>
      let r := method q h in
      let r' := calls method rest (state_of r) in
      (fst r', result_of r :: snd r')
  end.

(** The calls that end a session. *)
Definition ends_session (ev : event) : bool :=
  match ev with
  | Push _ | Reset => true
  | _ => false
  end.

(** The two operations that write the Log. *)
Inductive log_op : Type :=
| LogPush (item : option string)
| LogMerge (value : HistoryReply).

Definition apply_log_op (h : ConsoleHistory) (op : log_op) : ConsoleHistory :=
  match op with
  | LogPush item => state_of (push item h)
  | LogMerge value => state_of (onHistory value h)
  end.

(** A history reply of [n] records whose inputs alternate between [a]
    and [b]. *)
Fixpoint zigzag (n : nat) (a b : string) : HistoryReply :=
  match n with
  | O => []
  | S n' => (0, 0, a) :: zigzag n' b a
  end.

(** The Log after [push item] on a live object with Log [l]. *)
Definition pushed (item : option string) (l : Vector.t) : Vector.t :=
  match item with
  | Some x =>
      if truthy item && strict_neq item (Vector.back l)
      then Vector.pushBack l x else l
  | None => l
  end.

(** A Log, when there is one, without adjacent duplicates. *)
Definition log_ok (h : ConsoleHistory) : Prop :=
  match _history h with
  | Some l => no_adjacent_dup l
  | None => True
  end.

(** A session with placeholder [P] whose filtered view was built from
    the Log [l]. *)
Definition in_session_of (P : string) (l : Vector.t) (h : ConsoleHistory) : Prop :=
  _hasSession h = true
  /\ _placeholder h = P
  /\ _filtered h = Some (List.filter (matches P) l).

(** [get placeholder]. *)
Definition placeholder (h : ConsoleHistory) : string := _placeholder h.

(** [get kernel]. *)
Definition kernel (h : ConsoleHistory) : option Kernel := _kernel h.

(** The object has its Log, and a session has its filtered vector. *)
Definition live_ok (h : ConsoleHistory) : Prop :=
  (exists l, _history h = Some l)
  /\ (_hasSession h = true -> exists v, _filtered h = Some v).

(** No [dispose] among the events. *)
Definition no_dispose (evs : list event) : bool :=
  forallb (fun ev => match ev with Dispose => false | _ => true end) evs.

(** A completion that is not a throw. *)
Definition returns {A : Type} (c : completion A) : Prop :=
  match c with
  | Returned _ => True
  | TypeError => False
  end.

(** ** Vectors *)

Lemma at_nonneg (v : Vector.t) (i : nat) :
  Vector.at_ v (Z.of_nat i) = nth_error v i.
Proof.
  unfold Vector.at_.
  destruct (Z.ltb_spec (Z.of_nat i) 0) as [Hneg | _]; [lia |].
  now rewrite Nat2Z.id.
Qed.

Lemma at_negative (v : Vector.t) (i : Z) : i < 0 -> Vector.at_ v i = None.
Proof.
  intros Hi. unfold Vector.at_.
  now destruct (Z.ltb_spec i 0) as [_ | Hge]; [| lia].
Qed.

Lemma at_beyond (v : Vector.t) (i : Z) :
  Vector.length v <= i -> Vector.at_ v i = None.
Proof.
  intros Hi. unfold Vector.at_, Vector.length in *.
  destruct (Z.ltb_spec i 0) as [_ | Hge]; [reflexivity |].
  apply nth_error_None. lia.
Qed.

Lemma at_In (v : Vector.t) (i : Z) (x : string) :
  Vector.at_ v i = Some x -> In x v.
Proof.
  unfold Vector.at_. destruct (i <? 0); [discriminate |].
  apply nth_error_In.
Qed.

Lemma length_nonneg (v : Vector.t) : 0 <= Vector.length v.
Proof. unfold Vector.length. lia. Qed.

Lemma back_empty : Vector.back [] = None.
Proof. reflexivity. Qed.

Lemma back_pushBack (v : Vector.t) (x : string) :
  Vector.back (Vector.pushBack v x) = Some x.
Proof.
  unfold Vector.back, Vector.pushBack, Vector.length.
  rewrite length_app. simpl.
  replace (Z.of_nat (List.length v + 1) - 1) with (Z.of_nat (List.length v)) by lia.
  rewrite at_nonneg, nth_error_app2 by lia.
  now rewrite Nat.sub_diag.
Qed.

Lemma back_cons (a b : string) (v : Vector.t) :
  Vector.back (a :: b :: v) = Vector.back (b :: v).
Proof.
  unfold Vector.back, Vector.length. simpl List.length.
  replace (Z.of_nat (S (S (List.length v))) - 1)
    with (Z.of_nat (S (List.length v))) by lia.
  replace (Z.of_nat (S (List.length v)) - 1)
    with (Z.of_nat (List.length v)) by lia.
  now rewrite !at_nonneg.
Qed.

(** ** The loop of [onHistory] *)

Lemma onHistory_loop_spec (entries : list HistoryEntry) :
  forall (last : string) (h : ConsoleHistory) (acc : Vector.t),
    _history h = Some acc ->
    onHistory_loop entries last h =
    (set_history (Some (acc ++ spec_dedup last (map input_of entries))) h,
     Returned tt).
Proof.
  induction entries as [| e rest IH]; intros last h acc Hacc; simpl.
  - rewrite app_nil_r. unfold ret. destruct h; simpl in *. now subst.
  - destruct (String.eqb (input_of e) last) eqn:E; simpl.
    + now apply IH.
    + unfold bind at 1, deref. rewrite Hacc.
      unfold bind at 1, put.
      rewrite (IH (input_of e) _ (Vector.pushBack acc (input_of e)))
        by reflexivity.
      unfold Vector.pushBack, set_history. simpl.
      now rewrite <- app_assoc.
Qed.

Lemma onHistory_spec (value : HistoryReply) (h : ConsoleHistory) :
  onHistory value h =
  (mkConsoleHistory
     (Vector.length (spec_dedup "" (map input_of value)))
     (_hasSession h)
     (Some (spec_dedup "" (map input_of value)))
     (_kernel h) (_placeholder h) (_filtered h),
   Returned tt).
Proof.
  unfold onHistory, bind at 1, put.
  unfold bind at 1.
  rewrite (onHistory_loop_spec value "" (set_history (Some Vector.empty) h)
             (acc := Vector.empty)) by reflexivity.
  reflexivity.
Qed.

Lemma spec_dedup_zigzag (n : nat) :
  forall a b last : string,
    a <> b -> last <> a ->
    spec_dedup last (map input_of (zigzag n a b)) = map input_of (zigzag n a b).
Proof.
  induction n as [| n IH]; intros a b last Hab Hlast; simpl; [reflexivity |].
  unfold input_of at 1. simpl.
  destruct (String.eqb_spec a last) as [E | _]; [congruence |].
  f_equal. apply IH; congruence.
Qed.

Lemma zigzag_length (n : nat) (a b : string) :
  List.length (map input_of (zigzag n a b)) = n.
Proof.
  revert a b. induction n as [| n IH]; intros a b; simpl; [reflexivity |].
  now rewrite IH.
Qed.

(** ** Navigation inside a session *)

Lemma back_in_session (q : string) (h : ConsoleHistory) (v : Vector.t) :
  _hasSession h = true -> _filtered h = Some v ->
  back q h = (set_cursor (Z.max 0 (_cursor h - 1)) h,
              Returned (Vector.at_ v (_cursor h - 1))).
Proof.
  intros Hs Hf. destruct h; simpl in *; subst. reflexivity.
Qed.

Lemma forward_in_session (q : string) (h : ConsoleHistory) (v : Vector.t) :
  _hasSession h = true -> _filtered h = Some v ->
  forward q h = (set_cursor (Z.min (Vector.length v) (_cursor h + 1)) h,
                 Returned (Vector.at_ v (_cursor h + 1))).
Proof.
  intros Hs Hf. destruct h; simpl in *; subst. reflexivity.
Qed.

(** The first call of a session on a live object. *)
Lemma back_start (P : string) (h : ConsoleHistory) (l : Vector.t) :
  _hasSession h = false -> _history h = Some l ->
  back P h =
  (let v := List.filter (matches P) l in
   (mkConsoleHistory (Z.max 0 (Vector.length v - 1)) true (Some l)
                     (_kernel h) P (Some v),
    Returned (Vector.at_ v (Vector.length v - 1)))).
Proof.
  intros Hs Hl. destruct h; simpl in *; subst. reflexivity.
Qed.

Lemma forward_start (P : string) (h : ConsoleHistory) (l : Vector.t) :
  _hasSession h = false -> _history h = Some l ->
  forward P h =
  (let v := List.filter (matches P) l in
   (mkConsoleHistory (Z.min (Vector.length v) (Vector.length v + 1)) true
                     (Some l) (_kernel h) P (Some v),
    Returned (Vector.at_ v (Vector.length v + 1)))).
Proof.
  intros Hs Hl. destruct h; simpl in *; subst. reflexivity.
Qed.

(** The first call of a session on a disposed object throws after the
    session flag and the placeholder have been written. *)
Lemma back_start_disposed (P : string) (h : ConsoleHistory) :
  _hasSession h = false -> _history h = None ->
  back P h = (set_placeholder P (set_hasSession true h), TypeError).
Proof.
  intros Hs Hl. destruct h; simpl in *; subst. reflexivity.
Qed.

Lemma forward_start_disposed (P : string) (h : ConsoleHistory) :
  _hasSession h = false -> _history h = None ->
  forward P h = (set_placeholder P (set_hasSession true h), TypeError).
Proof.
  intros Hs Hl. destruct h; simpl in *; subst. reflexivity.
Qed.

(** A call inside a session whose filtered vector was never built. *)
Lemma back_no_filtered (q : string) (h : ConsoleHistory) :
  _hasSession h = true -> _filtered h = None -> back q h = (h, TypeError).
Proof.
  intros Hs Hf. destruct h; simpl in *; subst. reflexivity.
Qed.

Lemma forward_no_filtered (q : string) (h : ConsoleHistory) :
  _hasSession h = true -> _filtered h = None -> forward q h = (h, TypeError).
Proof.
  intros Hs Hf. destruct h; simpl in *; subst. reflexivity.
Qed.

(** ** Stepping back at the oldest entry *)

(** C1, the claim as stated fails.  Log = [a=1; a=2; b=1]; a session
    filtered by "a" has the view [a=1; a=2].  The second [back] moves
    the cursor to 0 and returns the oldest match "a=1"; the third
    [back] of the same session returns [undefined], not "a=1". *)
Lemma C1_further_back_is_undefined :
  let h0 := nav (run [Push (Some "a=1"); Push (Some "a=2"); Push (Some "b=1")]
                     (construct None)) in
  let h1 := state_of (back "a" h0) in
  let h2 := state_of (back "ignored" h1) in
  _filtered h2 = Some ["a=1"; "a=2"]
  /\ _hasSession h2 = true
  /\ result_of (back "ignored" h1) = Returned (Some "a=1")
  /\ _cursor h2 = 0
  /\ result_of (back "again" h2) = Returned None
  /\ result_of (back "again" h2) <> Returned (Some "a=1").
Proof.
  vm_compute. repeat split; discriminate.
Qed.

(** C1 (amended): in a session whose cursor has reached 0, every
    further [back] returns [undefined] and leaves every field as it
    is, the cursor at 0 included: the element is read at the
    decremented cursor, the clamp to 0 comes after the read. *)
Theorem C1_back_at_zero (h : ConsoleHistory) (v : Vector.t) (qs : list string) :
  _hasSession h = true ->
  _filtered h = Some v ->
  _cursor h = 0 ->
  calls back qs h = (h, repeat (Returned None) (List.length qs)).
Proof.
  intros Hs Hf Hc.
  assert (Hone : forall q, back q h = (h, Returned None)).
  { intro q. rewrite (back_in_session q h Hs Hf), Hc.
    rewrite at_negative by lia.
    destruct h; simpl in *; subst. reflexivity. }
  induction qs as [| q rest IH]; simpl; [reflexivity |].
  rewrite Hone. unfold state_of, result_of. simpl.
  now rewrite IH.
Qed.

Lemma C1_back_at_zero_witness :
  let h := mkConsoleHistory 0 true (Some ["a=1"; "a=2"; "b=1"]) None "a"
                            (Some ["a=1"; "a=2"]) in
  calls back ["x"; "y"; "z"] h =
  (h, [Returned None; Returned None; Returned None]).
Proof.
  intro h.
  apply (@C1_back_at_zero h ["a=1"; "a=2"] ["x"; "y"; "z"]); reflexivity.
Defined.

(** ** Stepping forward past the newest entry *)

Lemma forward_keeps_session (q : string) (h : ConsoleHistory) (v : Vector.t) :
  _hasSession h = true -> _filtered h = Some v -> 0 <= _cursor h ->
  let h' := state_of (forward q h) in
  _hasSession h' = true /\ _filtered h' = Some v
  /\ _cursor h' = Z.min (Vector.length v) (_cursor h + 1)
  /\ 0 <= _cursor h' <= Vector.length v.
Proof.
  intros Hs Hf Hc. rewrite (forward_in_session q h Hs Hf).
  pose proof (length_nonneg v).
  unfold state_of; simpl. repeat split; auto; lia.
Qed.

Lemma forwards_spec (qs : list string) :
  forall (h : ConsoleHistory) (v : Vector.t),
    _hasSession h = true -> _filtered h = Some v -> 0 <= _cursor h ->
    let r := calls forward qs h in
    (forall (k : nat) (c : completion (option string)),
        nth_error (snd r) k = Some c ->
        Vector.length v <= _cursor h + Z.of_nat k + 1 ->
        c = Returned None)
    /\ _hasSession (fst r) = true
    /\ _filtered (fst r) = Some v
    /\ 0 <= _cursor (fst r)
    /\ (qs <> [] -> _cursor (fst r) <= Vector.length v).
Proof.
  induction qs as [| q rest IH]; intros h v Hs Hf Hc; simpl.
  - repeat split; auto.
    + intros k c Hk. destruct k; discriminate.
    + congruence.
  - destruct (forward_keeps_session q h Hs Hf Hc) as (Hs' & Hf' & Hc' & Hb).
    destruct (IH _ v Hs' Hf' (proj1 Hb)) as (Hres & Hs2 & Hf2 & Hc2 & Hle).
    repeat split; auto.
    + intros [| k] c Hk Hlen; simpl in Hk.
      * injection Hk as <-.
        rewrite (forward_in_session q h Hs Hf). unfold result_of; simpl.
        rewrite at_beyond by lia. reflexivity.
      * apply (Hres k c Hk). rewrite Hc'. lia.
    + intros _. destruct rest as [| q' rest'].
      * simpl. lia.
      * apply Hle. discriminate.
Qed.

(** C8: in a session with filtered view [v] (and a cursor that is not
    negative, as in every state the object can reach), among successive
    [forward] calls the call number [length v + 1] and every later one
    return [undefined] ([k] counts the calls from 0), the view stays
    what it is, and after each call the cursor is at most [length v]. *)
Theorem C8_forward_ends_undefined
        (h : ConsoleHistory) (v : Vector.t) (qs : list string) :
  _hasSession h = true ->
  _filtered h = Some v ->
  0 <= _cursor h ->
  (forall (k : nat) (c : completion (option string)),
      nth_error (snd (calls forward qs h)) k = Some c ->
      (List.length v <= k)%nat ->
      c = Returned None)
  /\ _filtered (fst (calls forward qs h)) = Some v
  /\ (qs <> [] -> _cursor (fst (calls forward qs h)) <= Vector.length v).
Proof.
  intros Hs Hf Hc.
  destruct (forwards_spec qs h Hs Hf Hc) as (Hres & _ & Hf' & _ & Hle).
  repeat split; auto.
  intros k c Hk Hlen. apply (Hres k c Hk).
  unfold Vector.length. lia.
Qed.

Lemma C8_forward_ends_undefined_witness :
  let h := mkConsoleHistory 0 true (Some ["a=1"; "a=2"; "b=1"]) None "a"
                            (Some ["a=1"; "a=2"]) in
  (forall (k : nat) (c : completion (option string)),
      nth_error (snd (calls forward ["x"; "y"; "z"; "w"] h)) k = Some c ->
      (2 <= k)%nat ->
      c = Returned None)
  /\ _filtered (fst (calls forward ["x"; "y"; "z"; "w"] h)) = Some ["a=1"; "a=2"]
  /\ (["x"; "y"; "z"; "w"] <> [] ->
      _cursor (fst (calls forward ["x"; "y"; "z"; "w"] h)) <= 2).
Proof.
  intro h.
  apply (@C8_forward_ends_undefined h ["a=1"; "a=2"] ["x"; "y"; "z"; "w"]).
  - reflexivity.
  - reflexivity.
  - simpl. lia.
Defined.

Lemma forward_start_undefined (P : string) (h : ConsoleHistory) (l : Vector.t) :
  _hasSession h = false -> _history h = Some l ->
  let v := List.filter (matches P) l in
  result_of (forward P h) = Returned None
  /\ _hasSession (state_of (forward P h)) = true
  /\ _filtered (state_of (forward P h)) = Some v
  /\ _cursor (state_of (forward P h)) = Vector.length v.
Proof.
  intros Hs Hl v. rewrite (forward_start P h Hs Hl).
  unfold state_of, result_of; simpl. fold v.
  pose proof (length_nonneg v).
  rewrite at_beyond by lia. repeat split; auto. lia.
Qed.

(** ** Merging a history reply *)

(** C5: [onHistory] replaces the Log by the fold the specification
    describes over the inputs of the reply ("last kept" starting as the
    empty string, an input kept iff it differs from it) and sets the
    cursor to the length of the new Log; a reply with the inputs
    x, x, y, y, y, z gives the Log [x; y; z]. *)
Theorem C5_onHistory_dedup (value : HistoryReply) (h : ConsoleHistory) :
  _history (state_of (onHistory value h))
  = Some (spec_dedup "" (map input_of value))
  /\ _cursor (state_of (onHistory value h))
     = Vector.length (spec_dedup "" (map input_of value))
  /\ result_of (onHistory value h) = Returned tt
  /\ (map input_of value = ["x"; "x"; "y"; "y"; "y"; "z"] ->
      _history (state_of (onHistory value h)) = Some ["x"; "y"; "z"]
      /\ _cursor (state_of (onHistory value h)) = 3).
Proof.
  rewrite onHistory_spec. unfold state_of, result_of; simpl.
  split; [reflexivity |]. split; [reflexivity |]. split; [reflexivity |].
  intros E. rewrite E. split; reflexivity.
Qed.

Lemma C5_onHistory_dedup_witness :
  let value := [(1, 1, "x"); (1, 2, "x"); (1, 3, "y"); (2, 1, "y");
                (2, 2, "y"); (2, 3, "z")] in
  _history (state_of (onHistory value fresh)) = Some ["x"; "y"; "z"]
  /\ _cursor (state_of (onHistory value fresh)) = 3.
Proof.
  intro value.
  apply (C5_onHistory_dedup value fresh). reflexivity.
Defined.

(** C10: a reply merged while a session is active writes the Log and
    the cursor only.  The session flag, the placeholder and the
    filtered view are what they were, the next [back] or [forward]
    reads the old view at the new cursor, the cursor is the length of
    the new Log, and some reply puts it beyond the end of the view. *)
Theorem C10_onHistory_frame
        (value : HistoryReply) (h : ConsoleHistory) (v : Vector.t) :
  _hasSession h = true ->
  _filtered h = Some v ->
  let h' := state_of (onHistory value h) in
  _hasSession h' = true
  /\ _placeholder h' = _placeholder h
  /\ _filtered h' = Some v
  /\ _kernel h' = _kernel h
  /\ (exists log, _history h' = Some log /\ _cursor h' = Vector.length log)
  /\ (forall q, result_of (back q h') = Returned (Vector.at_ v (_cursor h' - 1))
                /\ _filtered (state_of (back q h')) = Some v)
  /\ (forall q, result_of (forward q h') = Returned (Vector.at_ v (_cursor h' + 1))
                /\ _filtered (state_of (forward q h')) = Some v)
  /\ (exists value',
         _cursor (state_of (onHistory value' h)) > Vector.length v).
Proof.
  intros Hs Hf h'. subst h'. rewrite onHistory_spec. unfold state_of at 1 2 3 4 5 6.
  simpl.
  repeat split; auto.
  - eexists. split; reflexivity.
  - rewrite (@back_in_session q _ v) by assumption. reflexivity.
  - rewrite (@back_in_session q _ v) by assumption. assumption.
  - rewrite (@forward_in_session q _ v) by assumption. reflexivity.
  - rewrite (@forward_in_session q _ v) by assumption. assumption.
  - exists (zigzag (S (List.length v)) "a" "b").
    rewrite onHistory_spec. unfold state_of; simpl _cursor.
    rewrite spec_dedup_zigzag by discriminate.
    unfold Vector.length.
    change ("a" :: map input_of (zigzag (List.length v) "b" "a"))
      with (map input_of (zigzag (S (List.length v)) "a" "b")).
    rewrite zigzag_length. lia.
Qed.

Lemma C10_onHistory_frame_witness :
  let h := mkConsoleHistory 1 true (Some ["a=1"; "a=2"; "b=1"]) (Some 7%nat)
                            "a" (Some ["a=1"; "a=2"]) in
  let h' := state_of (onHistory [(1, 1, "p"); (1, 2, "q"); (1, 3, "r")] h) in
  _hasSession h' = true
  /\ _placeholder h' = "a"
  /\ _filtered h' = Some ["a=1"; "a=2"]
  /\ _kernel h' = Some 7%nat
  /\ (exists log, _history h' = Some log /\ _cursor h' = Vector.length log)
  /\ (forall q,
         result_of (back q h')
         = Returned (Vector.at_ ["a=1"; "a=2"] (_cursor h' - 1))
         /\ _filtered (state_of (back q h')) = Some ["a=1"; "a=2"])
  /\ (forall q,
         result_of (forward q h')
         = Returned (Vector.at_ ["a=1"; "a=2"] (_cursor h' + 1))
         /\ _filtered (state_of (forward q h')) = Some ["a=1"; "a=2"])
  /\ (exists value',
         _cursor (state_of (onHistory value' h)) > Vector.length ["a=1"; "a=2"]).
Proof.
  intro h.
  apply (@C10_onHistory_frame [(1, 1, "p"); (1, 2, "q"); (1, 3, "r")] h
                              ["a=1"; "a=2"]); reflexivity.
Defined.

(** ** Pushing *)

Lemma reset_live (h : ConsoleHistory) (l : Vector.t) :
  _history h = Some l ->
  reset h = (mkConsoleHistory (Vector.length l) false (Some l) (_kernel h) ""
                              (_filtered h),
             Returned tt).
Proof.
  intros Hl. destruct h; simpl in *; subst. reflexivity.
Qed.

Lemma push_live (item : option string) (h : ConsoleHistory) (l : Vector.t) :
  _history h = Some l ->
  push item h =
  (mkConsoleHistory (Vector.length (pushed item l)) false
                    (Some (pushed item l)) (_kernel h) "" (_filtered h),
   Returned tt).
Proof.
  intros Hl. destruct h as [c s hist k p f]; simpl in *; subst.
  destruct item as [x |]; [| reflexivity].
  unfold push, pushed. simpl truthy.
  destruct (negb (String.eqb x "")); [| reflexivity].
  cbv [bind deref put ret reset _history set_history set_cursor
       set_hasSession set_placeholder andb].
  destruct (strict_neq (Some x) (Vector.back l)); reflexivity.
Qed.

Lemma strict_neq_same (a : option string) : strict_neq a a = false.
Proof.
  destruct a as [x |]; simpl; [| reflexivity].
  now rewrite String.eqb_refl.
Qed.

(** C7: on a live object, [push] of an absent or empty item, or of the
    item that is the last entry of the Log, completes as [reset] does:
    the Log is what it was, no session is active, the placeholder is
    the empty string and the cursor is the length of the Log. *)
Theorem C7_push_ignored_still_resets
        (item : option string) (h : ConsoleHistory) (l : Vector.t) :
  _history h = Some l ->
  truthy item = false \/ item = Vector.back l ->
  push item h = reset h
  /\ _history (state_of (push item h)) = Some l
  /\ _hasSession (state_of (push item h)) = false
  /\ _placeholder (state_of (push item h)) = ""
  /\ _cursor (state_of (push item h)) = Vector.length l
  /\ result_of (push item h) = Returned tt.
Proof.
  intros Hl Hitem.
  assert (Hsame : pushed item l = l).
  { unfold pushed. destruct item as [x |]; [| reflexivity].
    destruct Hitem as [Hfalsy | Hlast].
    - now rewrite Hfalsy.
    - rewrite <- Hlast, strict_neq_same, andb_false_r. reflexivity. }
  rewrite (push_live item h Hl), (reset_live h Hl), Hsame.
  unfold state_of, result_of; simpl. repeat split; reflexivity.
Qed.

Lemma C7_push_ignored_still_resets_witness :
  let h := mkConsoleHistory 0 true (Some ["a=1"; "a=2"; "b=1"]) None "a"
                            (Some ["a=1"; "a=2"]) in
  push (Some "b=1") h = reset h
  /\ _history (state_of (push (Some "b=1") h)) = Some ["a=1"; "a=2"; "b=1"]
  /\ _hasSession (state_of (push (Some "b=1") h)) = false
  /\ _placeholder (state_of (push (Some "b=1") h)) = ""
  /\ _cursor (state_of (push (Some "b=1") h)) = 3
  /\ result_of (push (Some "b=1") h) = Returned tt.
Proof.
  intro h.
  apply (@C7_push_ignored_still_resets (Some "b=1") h ["a=1"; "a=2"; "b=1"]).
  - reflexivity.
  - right. reflexivity.
Defined.

(** ** No adjacent duplicates *)

Lemma no_adjacent_dup_pushBack (l : Vector.t) (x : string) :
  no_adjacent_dup l ->
  strict_neq (Some x) (Vector.back l) = true ->
  no_adjacent_dup (Vector.pushBack l x).
Proof.
  unfold Vector.pushBack.
  induction l as [| a [| b rest] IH]; intros Hl Hx.
  - exact I.
  - simpl in *. split; [| exact I].
    destruct (String.eqb_spec x a); [discriminate | congruence].
  - destruct Hl as [Hab Hrest]. split; [exact Hab |].
    apply IH; [exact Hrest |].
    now rewrite <- (back_cons a b rest).
Qed.

Lemma no_adjacent_dup_pushed (item : option string) (l : Vector.t) :
  no_adjacent_dup l -> no_adjacent_dup (pushed item l).
Proof.
  intros Hl. unfold pushed. destruct item as [x |]; [| exact Hl].
  destruct (strict_neq (Some x) (Vector.back l)) eqn:E;
    [| now rewrite andb_false_r].
  destruct (truthy (Some x)); [| exact Hl].
  now apply no_adjacent_dup_pushBack.
Qed.

Lemma spec_dedup_head (entries : list string) :
  forall (last x : string) (rest : list string),
    spec_dedup last entries = x :: rest -> x <> last.
Proof.
  induction entries as [| e entries IH]; intros last x rest; simpl.
  - discriminate.
  - destruct (String.eqb_spec e last) as [-> | Hne].
    + apply IH.
    + intros [= <- _]. exact Hne.
Qed.

Lemma no_adjacent_dup_spec_dedup (entries : list string) :
  forall last : string, no_adjacent_dup (spec_dedup last entries).
Proof.
  induction entries as [| e entries IH]; intros last; simpl.
  - exact I.
  - destruct (String.eqb e last); [apply IH |].
    specialize (IH e).
    destruct (spec_dedup e entries) as [| y rest] eqn:E; [exact I |].
    split; [| exact IH].
    intros ->. now apply (spec_dedup_head _ E).
Qed.

Lemma apply_log_op_live (h : ConsoleHistory) (op : log_op) (l : Vector.t) :
  _history h = Some l -> no_adjacent_dup l ->
  exists l', _history (apply_log_op h op) = Some l' /\ no_adjacent_dup l'.
Proof.
  intros Hl Hok. destruct op as [item | value]; simpl.
  - rewrite (push_live item h Hl). unfold state_of; simpl.
    eexists; split; [reflexivity |]. now apply no_adjacent_dup_pushed.
  - rewrite onHistory_spec. unfold state_of; simpl.
    eexists; split; [reflexivity |]. apply no_adjacent_dup_spec_dedup.
Qed.

(** C4: from an object whose Log is empty, after any sequence of
    pushes and merges of history replies there is a Log and no two
    adjacent entries of it are equal. *)
Theorem C4_no_adjacent_duplicates (ops : list log_op) (h : ConsoleHistory) :
  _history h = Some [] ->
  exists l, _history (fold_left apply_log_op ops h) = Some l
            /\ no_adjacent_dup l.
Proof.
  intros Hempty.
  assert (Hgen : forall ops h l,
             _history h = Some l -> no_adjacent_dup l ->
             exists l', _history (fold_left apply_log_op ops h) = Some l'
                        /\ no_adjacent_dup l').
  { clear. induction ops as [| op ops IH]; intros h l Hl Hok; simpl.
    - now exists l.
    - destruct (apply_log_op_live h op Hl Hok) as (l1 & Hl1 & Hok1).
      now apply (IH _ l1). }
  now apply (Hgen ops h []).
Qed.

Lemma C4_no_adjacent_duplicates_witness :
  exists l,
    _history (fold_left apply_log_op
                [LogPush (Some "a"); LogPush (Some "a");
                 LogMerge [(1, 1, "x"); (1, 2, "x"); (1, 3, "")];
                 LogPush (Some ""); LogPush None; LogPush (Some "y")]
                fresh) = Some l
    /\ no_adjacent_dup l.
Proof.
  apply (@C4_no_adjacent_duplicates
           [LogPush (Some "a"); LogPush (Some "a");
            LogMerge [(1, 1, "x"); (1, 2, "x"); (1, 3, "")];
            LogPush (Some ""); LogPush None; LogPush (Some "y")]
           fresh).
  reflexivity.
Defined.

(** ** The filter of a session *)

Lemma matches_starts_with (P entry : string) :
  matches P entry = true <-> starts_with P entry.
Proof.
  unfold matches, starts_with, slice0. rewrite String.eqb_eq.
  split; intros E; now symmetry.
Qed.

Lemma substring_zero (s : string) : String.substring 0 0 s = "".
Proof. destruct s; reflexivity. Qed.

Lemma matches_empty (entry : string) : matches "" entry = true.
Proof.
  unfold matches, slice0. simpl String.length.
  now rewrite substring_zero.
Qed.

Lemma filter_empty_placeholder (l : Vector.t) : List.filter (matches "") l = l.
Proof.
  induction l as [| e l IH]; simpl; [reflexivity |].
  now rewrite matches_empty, IH.
Qed.

Lemma at_filter_matches (P : string) (l : Vector.t) (i : Z) (e : string) :
  Vector.at_ (List.filter (matches P) l) i = Some e -> starts_with P e.
Proof.
  intros Hat. apply at_In, filter_In in Hat.
  now apply matches_starts_with.
Qed.

Lemma start_in_session (P : string) (h : ConsoleHistory) (l : Vector.t)
      (pend : list Kernel) (start : event) :
  _hasSession h = false -> _history h = Some l ->
  start = Back P \/ start = Forward P ->
  in_session_of P l (nav (step start (mkSystem h pend))).
Proof.
  intros Hs Hl [-> | ->]; simpl.
  - rewrite (back_start P h Hs Hl). now repeat split.
  - rewrite (forward_start P h Hs Hl). now repeat split.
Qed.

Lemma step_in_session (P : string) (l : Vector.t) (ev : event) (s : System) :
  in_session_of P l (nav s) ->
  ends_session ev = false ->
  in_session_of P l (nav (step ev s)).
Proof.
  intros (Hs & Hp & Hf) Hev.
  destruct ev as [newValue | | q | q | item | | i value | i];
    try discriminate Hev; simpl.
  - destruct s as [[c b hist k p f] pend]; simpl in *; subst.
    unfold setKernel, bind, get, put, ret; simpl.
    destruct (same_kernel newValue k); [now repeat split |].
    destruct newValue; now repeat split.
  - destruct s as [[c b [hist |] k p f] pend]; simpl in *; subst;
      now repeat split.
  - rewrite (back_in_session q _ Hs Hf). now repeat split.
  - rewrite (forward_in_session q _ Hs Hf). now repeat split.
  - destruct (nth_error (pending s) i); simpl; [| now repeat split].
    rewrite onHistory_spec. now repeat split.
  - now repeat split.
Qed.

Lemma run_in_session (P : string) (l : Vector.t) (evs : list event) :
  forall s : System,
    in_session_of P l (nav s) ->
    forallb (fun ev => negb (ends_session ev)) evs = true ->
    in_session_of P l (nav (run evs s)).
Proof.
  induction evs as [| ev evs IH]; intros s Hin Hevs; simpl in *.
  - exact Hin.
  - apply andb_prop in Hevs as [Hev Hevs].
    apply IH; [| exact Hevs].
    apply step_in_session; [exact Hin |].
    now apply negb_true_iff.
Qed.

(** C6: a session is started on a live object by [back P] or
    [forward P]; whatever follows except the calls that end the session
    ([push], [reset]), a [back] with any argument returns only entries
    [e] with [substring 0 (length P) e = P], the placeholder stays [P],
    and for the empty placeholder the view is the whole Log.  So does
    the starting [back P] itself. *)
Theorem C6_back_returns_prefixed
        (P : string) (h : ConsoleHistory) (l : Vector.t) (pend : list Kernel)
        (start : event) (evs : list event) :
  _hasSession h = false ->
  _history h = Some l ->
  start = Back P \/ start = Forward P ->
  forallb (fun ev => negb (ends_session ev)) evs = true ->
  let s := run evs (step start (mkSystem h pend)) in
  (forall e, result_of (back P h) = Returned (Some e) -> starts_with P e)
  /\ (forall q e, result_of (back q (nav s)) = Returned (Some e) ->
                  starts_with P e)
  /\ _placeholder (nav s) = P
  /\ (P = "" -> _filtered (nav s) = Some l).
Proof.
  intros Hs Hl Hstart Hevs s.
  assert (Hin : in_session_of P l (nav s)).
  { apply run_in_session; [| exact Hevs]. now apply start_in_session. }
  destruct Hin as (Hs' & Hp' & Hf').
  split; [| split; [| split]].
  - intros e. rewrite (back_start P h Hs Hl). unfold result_of; simpl.
    intros [= Hat]. now apply at_filter_matches in Hat.
  - intros q e. rewrite (back_in_session q _ Hs' Hf'). unfold result_of; simpl.
    intros [= Hat]. now apply at_filter_matches in Hat.
  - exact Hp'.
  - intros ->. now rewrite Hf', filter_empty_placeholder.
Qed.

Lemma C6_back_returns_prefixed_witness :
  let h := mkConsoleHistory 3 false (Some ["a=1"; "a=2"; "b=1"]) None "" None in
  let s := run [Back "b"; Fulfil 0 [(1, 1, "b=7")]; Forward "c"; Dispose]
               (step (Back "a") (mkSystem h [5%nat])) in
  (forall e, result_of (back "a" h) = Returned (Some e) -> starts_with "a" e)
  /\ (forall q e, result_of (back q (nav s)) = Returned (Some e) ->
                  starts_with "a" e)
  /\ _placeholder (nav s) = "a"
  /\ ("a" = "" -> _filtered (nav s) = Some ["a=1"; "a=2"; "b=1"]).
Proof.
  intro h.
  apply (@C6_back_returns_prefixed "a" h ["a=1"; "a=2"; "b=1"] [5%nat]
           (Back "a") [Back "b"; Fulfil 0 [(1, 1, "b=7")]; Forward "c"; Dispose]).
  - reflexivity.
  - reflexivity.
  - left. reflexivity.
  - reflexivity.
Defined.

(** A session "started" on a disposed object: the call throws after the
    flag and the placeholder are written, the view of an earlier session
    stays in place, and a later [back] returns an entry of that view. *)
Example back_after_dispose_reads_stale_view :
  let s := run [Push (Some "a"); Push (Some "b"); Back "a"; Reset; Dispose;
                Back "b"; Back "z"] (construct None) in
  _placeholder (nav s) = "b"
  /\ isDisposed (nav s) = true
  /\ result_of (back "q" (nav s)) = Returned (Some "a").
Proof. vm_compute. repeat split. Qed.

(** ** Binding a kernel *)

Lemma setKernel_other (k : Kernel) (h : ConsoleHistory) :
  same_kernel (Some k) (_kernel h) = false ->
  setKernel (Some k) h = (set_kernel (Some k) h, Returned (Some k)).
Proof.
  intros Hk. unfold setKernel, bind at 1, get. rewrite Hk. reflexivity.
Qed.

Lemma setKernel_null (h : ConsoleHistory) :
  same_kernel None (_kernel h) = false ->
  setKernel None h
  = (set_history (Some Vector.empty) (set_kernel None h), Returned None).
Proof.
  intros Hk. unfold setKernel, bind at 1, get. rewrite Hk. reflexivity.
Qed.

Lemma setKernel_same (k : option Kernel) (h : ConsoleHistory) :
  same_kernel k (_kernel h) = true ->
  setKernel k h = (h, Returned None).
Proof.
  intros Hk. unfold setKernel, bind at 1, get. rewrite Hk. reflexivity.
Qed.

Lemma back_set_kernel (q : string) (k : option Kernel) (h : ConsoleHistory) :
  back q (set_kernel k h)
  = (set_kernel k (state_of (back q h)), result_of (back q h)).
Proof.
  destruct h as [c [] [l |] k0 p [f |]]; reflexivity.
Qed.

Lemma forward_set_kernel (q : string) (k : option Kernel) (h : ConsoleHistory) :
  forward q (set_kernel k h)
  = (set_kernel k (state_of (forward q h)), result_of (forward q h)).
Proof.
  destruct h as [c [] [l |] k0 p [f |]]; reflexivity.
Qed.

(** C2, the claim as stated fails.  Kernel 1 is bound at construction
    and its reply gives the Log [old]; binding kernel 2 issues the
    request and leaves the Log [old], which a [back] made before the
    reply of kernel 2 returns. *)
Lemma C2_rebinding_keeps_old_log :
  let s1 := run [Fulfil 0 [(1, 1, "old")]] (construct (Some 1%nat)) in
  let s2 := step (SetKernel (Some 2%nat)) s1 in
  _history (nav s1) = Some ["old"]
  /\ pending s2 = [2%nat]
  /\ _kernel (nav s2) = Some 2%nat
  /\ _history (nav s2) = Some ["old"]
  /\ _history (nav s2) <> Some []
  /\ result_of (back "" (nav s2)) = Returned (Some "old").
Proof.
  vm_compute. repeat split. discriminate.
Qed.

(** C2 (amended): binding a kernel that is not [null] and not the
    kernel already bound writes the [_kernel] field only and issues one
    history request; the Log and the session are what they were, so
    [back] and [forward] before the reply answer from the previous Log
    exactly as without the rebinding.  The Log is replaced when the
    reply arrives.  Binding [null] (when a kernel was bound) is the case
    that empties the Log at once, with no request. *)
Theorem C2_rebinding_defers_clearing (k : Kernel) (s : System) :
  same_kernel (Some k) (_kernel (nav s)) = false ->
  let s' := step (SetKernel (Some k)) s in
  nav s' = set_kernel (Some k) (nav s)
  /\ _history (nav s') = _history (nav s)
  /\ pending s' = pending s ++ [k]
  /\ (forall q, result_of (back q (nav s')) = result_of (back q (nav s)))
  /\ (forall q, result_of (forward q (nav s')) = result_of (forward q (nav s)))
  /\ (forall value,
         _history (nav (step (Fulfil (List.length (pending s)) value) s'))
         = Some (spec_dedup "" (map input_of value)))
  /\ (_kernel (nav s) <> None ->
      _history (nav (step (SetKernel None) s)) = Some []
      /\ pending (step (SetKernel None) s) = pending s).
Proof.
  intros Hk s'. subst s'. simpl. rewrite (setKernel_other k _ Hk). simpl.
  split; [reflexivity |]. split; [reflexivity |]. split; [reflexivity |].
  split; [| split; [| split]].
  - intros q. now rewrite back_set_kernel.
  - intros q. now rewrite forward_set_kernel.
  - intros value. rewrite nth_error_app2 by lia.
    rewrite Nat.sub_diag. simpl. now rewrite onHistory_spec.
  - intros Hbound. rewrite setKernel_null.
    + split; reflexivity.
    + destruct (_kernel (nav s)); [reflexivity | congruence].
Qed.

Lemma C2_rebinding_defers_clearing_witness :
  let s := mkSystem (mkConsoleHistory 1 false (Some ["old"]) (Some 1%nat) ""
                                      None) [] in
  let s' := step (SetKernel (Some 2%nat)) s in
  nav s' = set_kernel (Some 2%nat) (nav s)
  /\ _history (nav s') = _history (nav s)
  /\ pending s' = pending s ++ [2%nat]
  /\ (forall q, result_of (back q (nav s')) = result_of (back q (nav s)))
  /\ (forall q, result_of (forward q (nav s')) = result_of (forward q (nav s)))
  /\ (forall value,
         _history (nav (step (Fulfil (List.length (pending s)) value) s'))
         = Some (spec_dedup "" (map input_of value)))
  /\ (_kernel (nav s) <> None ->
      _history (nav (step (SetKernel None) s)) = Some []
      /\ pending (step (SetKernel None) s) = pending s).
Proof.
  intro s.
  apply (@C2_rebinding_defers_clearing 2%nat s). reflexivity.
Defined.

(** ** Replies of superseded requests *)

(** C3, the claim as stated fails.  Kernel 1 is bound at construction,
    kernel 2 is bound while the request to kernel 1 is pending, the
    reply of kernel 2 gives the Log [new]; the reply of kernel 1 that
    arrives afterwards replaces it by [old]. *)
Lemma C3_stale_reply_is_applied :
  let s1 := step (SetKernel (Some 2%nat)) (construct (Some 1%nat)) in
  let s2 := step (Fulfil 1 [(1, 1, "new")]) s1 in
  let s3 := step (Fulfil 0 [(1, 1, "old"); (1, 2, "older")]) s2 in
  pending s1 = [1%nat; 2%nat]
  /\ _kernel (nav s2) = Some 2%nat
  /\ _history (nav s2) = Some ["new"]
  /\ pending s2 = [1%nat]
  /\ _history (nav s3) = Some ["old"; "older"]
  /\ _cursor (nav s3) = 2
  /\ nav s3 <> nav s2.
Proof.
  vm_compute. repeat split. discriminate.
Qed.

(** C3 (amended): the reply to a pending request is merged whether or
    not the kernel it was sent to is still the bound one: the Log
    becomes the deduplicated reply and the cursor its length, the other
    fields stay, and the request is no longer pending. *)
Theorem C3_every_reply_is_merged
        (s : System) (i : nat) (k : Kernel) (value : HistoryReply) :
  nth_error (pending s) i = Some k ->
  _kernel (nav s) <> Some k ->
  let s' := step (Fulfil i value) s in
  _history (nav s') = Some (spec_dedup "" (map input_of value))
  /\ _cursor (nav s') = Vector.length (spec_dedup "" (map input_of value))
  /\ _kernel (nav s') = _kernel (nav s)
  /\ _hasSession (nav s') = _hasSession (nav s)
  /\ _placeholder (nav s') = _placeholder (nav s)
  /\ _filtered (nav s') = _filtered (nav s)
  /\ pending s' = remove_nth i (pending s).
Proof.
  intros Hpending _ s'. subst s'. simpl. rewrite Hpending. simpl.
  rewrite onHistory_spec. now repeat split.
Qed.

Lemma C3_every_reply_is_merged_witness :
  let s := mkSystem (mkConsoleHistory 1 false (Some ["new"]) (Some 2%nat) ""
                                      None) [1%nat] in
  let s' := step (Fulfil 0 [(1, 1, "old"); (1, 2, "older")]) s in
  _history (nav s') = Some ["old"; "older"]
  /\ _cursor (nav s') = 2
  /\ _kernel (nav s') = Some 2%nat
  /\ _hasSession (nav s') = false
  /\ _placeholder (nav s') = ""
  /\ _filtered (nav s') = None
  /\ pending s' = [].
Proof.
  intro s.
  apply (@C3_every_reply_is_merged s 0%nat 1%nat
           [(1, 1, "old"); (1, 2, "older")]).
  - reflexivity.
  - discriminate.
Defined.

(** ** After [dispose] *)

(** The calls that keep a disposed object disposed: [dispose] returns
    without a change (its own test of [isDisposed]), [reset] and [push]
    throw without a change, and [back], [forward] and the binding of a
    kernel other than [null] do not write the Log. *)
Lemma disposed_stays_disposed (h : ConsoleHistory) :
  _history h = None ->
  dispose h = (h, Returned tt)
  /\ reset h = (h, TypeError)
  /\ (forall item, push item h = (h, TypeError))
  /\ (forall q, isDisposed (state_of (back q h)) = true)
  /\ (forall q, isDisposed (state_of (forward q h)) = true)
  /\ (forall k, isDisposed (state_of (setKernel (Some k) h)) = true).
Proof.
  intros Hd. destruct h as [c b hist k p f]; simpl in Hd; subst hist.
  split; [reflexivity |]. split; [reflexivity |].
  split; [| split; [| split]].
  - intros [x |]; [| reflexivity].
    unfold push. simpl truthy. destruct (negb (String.eqb x "")); reflexivity.
  - intros q. destruct b, f; reflexivity.
  - intros q. destruct b, f; reflexivity.
  - intros k'.
    destruct (same_kernel (Some k') k) eqn:E.
    + now rewrite setKernel_same.
    + now rewrite setKernel_other.
Qed.

(** C9: the code at the failing input.  A kernel is bound at
    construction and the object is disposed while the request is
    pending, so [isDisposed] is [true].  The reply then runs
    [onHistory], which installs the Log [x; y]: [isDisposed] is [false]
    again, and a further [dispose], a no-op on a disposed object, has a
    Log to release once more.  Binding [null] after the disposal
    re-creates an empty Log in the same way.  The object does not stay
    disposed, although [isDisposed] and the guard of [dispose] rest on
    the Log staying [null]. *)
Lemma C9_reply_undoes_dispose :
  let s1 := step Dispose (construct (Some 1%nat)) in
  let s2 := step (Fulfil 0 [(1, 1, "x"); (1, 2, "y")]) s1 in
  let s3 := step (SetKernel None) s1 in
  isDisposed (nav s1) = true
  /\ isDisposed (nav s2) = false
  /\ _history (nav s2) = Some ["x"; "y"]
  /\ isDisposed (nav s3) = false
  /\ step Dispose s1 = s1
  /\ step Dispose s2 <> s2.
Proof.
  vm_compute. repeat split. discriminate.
Qed.

(** ** Invariants of every reachable state *)

Lemma step_cursor_nonneg (ev : event) (s : System) :
  0 <= _cursor (nav s) -> 0 <= _cursor (nav (step ev s)).
Proof.
  intros Hc.
  destruct ev as [newValue | | q | q | item | | i value | i]; simpl.
  - destruct s as [[c b hist k p f] pend]; simpl in *.
    unfold setKernel, bind, get, put, ret; simpl.
    destruct (same_kernel newValue k); [exact Hc |].
    destruct newValue; exact Hc.
  - destruct s as [[c b [hist |] k p f] pend]; exact Hc.
  - destruct s as [[c [] [hist |] k p [f |]] pend]; simpl in *;
      try exact Hc; lia.
  - destruct s as [[c [] [hist |] k p [f |]] pend]; simpl in *;
      try exact Hc;
      match goal with
      | |- context [Vector.length ?v] => pose proof (length_nonneg v)
      end; lia.
  - destruct (_history (nav s)) as [l |] eqn:Hl.
    + rewrite (push_live item _ Hl). apply length_nonneg.
    + destruct s as [[c b hist k p f] pend]; simpl in *; subst hist.
      destruct item as [x |]; [| exact Hc].
      unfold push. simpl truthy.
      destruct (negb (String.eqb x "")); exact Hc.
  - destruct (_history (nav s)) as [l |] eqn:Hl.
    + rewrite (reset_live _ Hl). apply length_nonneg.
    + destruct s as [[c b hist k p f] pend]; simpl in *; subst hist.
      exact Hc.
  - destruct (nth_error (pending s) i); [| exact Hc]. simpl.
    rewrite onHistory_spec. apply length_nonneg.
  - exact Hc.
Qed.

Lemma step_log_ok (ev : event) (s : System) :
  log_ok (nav s) -> log_ok (nav (step ev s)).
Proof.
  unfold log_ok. intros Hok.
  destruct ev as [newValue | | q | q | item | | i value | i]; simpl.
  - destruct s as [[c b hist k p f] pend]; simpl in *.
    unfold setKernel, bind, get, put, ret; simpl.
    destruct (same_kernel newValue k); [exact Hok |].
    destruct newValue; [exact Hok | exact I].
  - destruct s as [[c b [hist |] k p f] pend]; exact I.
  - destruct s as [[c [] [hist |] k p [f |]] pend]; exact Hok.
  - destruct s as [[c [] [hist |] k p [f |]] pend]; exact Hok.
  - destruct (_history (nav s)) as [l |] eqn:Hl.
    + rewrite (push_live item _ Hl). simpl.
      now apply no_adjacent_dup_pushed.
    + destruct s as [[c b hist k p f] pend]; simpl in *; subst hist.
      destruct item as [x |]; [| exact I].
      unfold push. simpl truthy.
      destruct (negb (String.eqb x "")); exact I.
  - destruct (_history (nav s)) as [l |] eqn:Hl.
    + rewrite (reset_live _ Hl). exact Hok.
    + destruct s as [[c b hist k p f] pend]; simpl in *; subst hist.
      exact I.
  - destruct (nth_error (pending s) i); [| exact Hok]. simpl.
    rewrite onHistory_spec. apply no_adjacent_dup_spec_dedup.
  - exact Hok.
Qed.

(** Whatever happens to an object after its construction, its cursor
    is not negative and its Log has no adjacent duplicates. *)
Lemma reachable_invariants (kernel : option Kernel) (evs : list event) :
  0 <= _cursor (nav (run evs (construct kernel)))
  /\ log_ok (nav (run evs (construct kernel))).
Proof.
  assert (Hgen : forall evs s,
             0 <= _cursor (nav s) /\ log_ok (nav s) ->
             0 <= _cursor (nav (run evs s)) /\ log_ok (nav (run evs s))).
  { clear. induction evs as [| ev evs IH]; intros s [Hc Hok]; simpl.
    - now split.
    - apply IH. split; [now apply step_cursor_nonneg | now apply step_log_ok]. }
  apply Hgen. destruct kernel; simpl; split; try lia; exact I.
Qed.

(** ** Runs of [back] and of [forward] *)

Lemma set_cursor_same (h : ConsoleHistory) : set_cursor (_cursor h) h = h.
Proof. now destruct h. Qed.

Lemma set_cursor_twice (c c' : Z) (h : ConsoleHistory) :
  set_cursor c (set_cursor c' h) = set_cursor c h.
Proof. reflexivity. Qed.

Lemma calls_back_in_session (qs : list string) :
  forall (h : ConsoleHistory) (v : Vector.t),
    _hasSession h = true ->
    _filtered h = Some v ->
    0 <= _cursor h ->
    calls back qs h
    = (set_cursor (Z.max 0 (_cursor h - Z.of_nat (List.length qs))) h,
       map (fun j => Returned (Vector.at_ v (_cursor h - Z.of_nat j)))
           (seq 1 (List.length qs))).
Proof.
  induction qs as [| q rest IH]; intros h v Hs Hf Hc.
  - simpl. rewrite Z.sub_0_r, Z.max_r by lia. now rewrite set_cursor_same.
  - cbn [calls]. rewrite (back_in_session q h Hs Hf).
    unfold state_of, result_of. cbn [fst snd].
    rewrite (IH (set_cursor (Z.max 0 (_cursor h - 1)) h) v)
      by (try assumption; simpl; lia).
    cbn [fst snd]. f_equal.
    + rewrite set_cursor_twice. f_equal. simpl _cursor.
      cbn [List.length]. lia.
    + cbn [List.length seq map]. f_equal.
      rewrite <- (seq_shift (List.length rest) 1), map_map.
      apply map_ext_in. intros j Hj. apply in_seq in Hj.
      simpl _cursor. f_equal.
      destruct (Z.eq_dec (_cursor h) 0) as [E | E].
      * rewrite E. simpl Z.max. now rewrite !at_negative by lia.
      * f_equal. lia.
Qed.

(** In a session with view [v] and a cursor that is not negative,
    successive [back] calls return the entries below the cursor, one
    index lower each time, [undefined] once the index would be
    negative; the cursor ends at [max 0 (cursor - number of calls)]. *)
Theorem backs_closed_form
        (qs : list string) (h : ConsoleHistory) (v : Vector.t) :
  _hasSession h = true ->
  _filtered h = Some v ->
  0 <= _cursor h ->
  calls back qs h
  = (set_cursor (Z.max 0 (_cursor h - Z.of_nat (List.length qs))) h,
     map (fun j => Returned (Vector.at_ v (_cursor h - Z.of_nat j)))
         (seq 1 (List.length qs))).
Proof.
  intros Hs Hf Hc. now apply calls_back_in_session.
Qed.

Lemma backs_closed_form_witness :
  let h := mkConsoleHistory 2 true (Some ["a=1"; "a=2"; "b=1"]) None "a"
                            (Some ["a=1"; "a=2"]) in
  calls back ["x"; "y"; "z"] h
  = (set_cursor 0 h, [Returned (Some "a=2"); Returned (Some "a=1"); Returned None]).
Proof.
  intro h.
  apply (@backs_closed_form ["x"; "y"; "z"] h ["a=1"; "a=2"]).
  - reflexivity.
  - reflexivity.
  - simpl. lia.
Defined.

(** In a session with view [v] and a cursor that is not beyond the end
    of [v], successive [forward] calls return the entries above the
    cursor, one index higher each time, [undefined] from the end of
    [v] on; the cursor ends at
    [min (length v) (cursor + number of calls)]. *)
Theorem forwards_closed_form (qs : list string) :
  forall (h : ConsoleHistory) (v : Vector.t),
    _hasSession h = true ->
    _filtered h = Some v ->
    _cursor h <= Vector.length v ->
    calls forward qs h
    = (set_cursor (Z.min (Vector.length v)
                         (_cursor h + Z.of_nat (List.length qs))) h,
       map (fun j => Returned (Vector.at_ v (_cursor h + Z.of_nat j)))
           (seq 1 (List.length qs))).
Proof.
  induction qs as [| q rest IH]; intros h v Hs Hf Hc.
  - simpl. rewrite Z.add_0_r, Z.min_r by lia. now rewrite set_cursor_same.
  - cbn [calls]. rewrite (forward_in_session q h Hs Hf).
    unfold state_of, result_of. cbn [fst snd].
    rewrite (IH (set_cursor (Z.min (Vector.length v) (_cursor h + 1)) h) v)
      by (try assumption; simpl; lia).
    cbn [fst snd]. f_equal.
    + rewrite set_cursor_twice. f_equal. simpl _cursor.
      cbn [List.length]. lia.
    + cbn [List.length seq map]. f_equal.
      rewrite <- (seq_shift (List.length rest) 1), map_map.
      apply map_ext_in. intros j Hj. apply in_seq in Hj.
      simpl _cursor. f_equal.
      destruct (Z.eq_dec (_cursor h) (Vector.length v)) as [E | E].
      * rewrite E, Z.min_l by lia. now rewrite !at_beyond by lia.
      * f_equal. lia.
Qed.

Lemma forwards_closed_form_witness :
  let h := mkConsoleHistory 0 true (Some ["a=1"; "a=2"; "b=1"]) None "a"
                            (Some ["a=1"; "a=2"]) in
  calls forward ["x"; "y"; "z"] h
  = (set_cursor 2 h, [Returned (Some "a=2"); Returned None; Returned None]).
Proof.
  intro h.
  apply (@forwards_closed_form ["x"; "y"; "z"] h ["a=1"; "a=2"]).
  - reflexivity.
  - reflexivity.
  - simpl. unfold Vector.length. simpl. lia.
Defined.

Lemma at_from_end (v : Vector.t) (k : nat) :
  Vector.at_ v (Vector.length v - 1 - Z.of_nat k) = nth_error (rev v) k.
Proof.
  rewrite nth_error_rev. unfold Vector.length.
  destruct (Nat.ltb_spec k (List.length v)) as [Hlt | Hge].
  - replace (Z.of_nat (List.length v) - 1 - Z.of_nat k)
      with (Z.of_nat (List.length v - S k)) by lia.
    apply at_nonneg.
  - apply at_negative. lia.
Qed.

(** On a live object without a session, [back P] followed by further
    [back] calls (whatever their arguments) returns the entries of the
    Log that match [P] from the newest to the oldest, one per call, and
    [undefined] once they are used up. *)
Theorem new_session_backs_newest_first
        (P : string) (qs : list string) (h : ConsoleHistory) (l : Vector.t) :
  _hasSession h = false ->
  _history h = Some l ->
  snd (calls back (P :: qs) h)
  = map (fun k => Returned (nth_error (rev (List.filter (matches P) l)) k))
        (seq 0 (S (List.length qs))).
Proof.
  intros Hs Hl. cbn [calls snd]. rewrite (back_start P h Hs Hl).
  set (v := List.filter (matches P) l).
  unfold state_of, result_of. cbn [fst snd].
  rewrite (@calls_back_in_session qs _ v) by (try reflexivity; simpl; lia).
  cbn [snd seq map]. f_equal.
  - f_equal. rewrite <- (at_from_end v 0). f_equal. lia.
  - apply map_ext_in. intros k Hk. apply in_seq in Hk.
    f_equal. simpl _cursor.
    rewrite <- at_from_end.
    pose proof (length_nonneg v) as Hlen.
    destruct (Z.eq_dec (Vector.length v) 0) as [E | E].
    + rewrite E. simpl Z.max. now rewrite !at_negative by lia.
    + f_equal. lia.
Qed.

Lemma new_session_backs_newest_first_witness :
  let h := mkConsoleHistory 3 false (Some ["a=1"; "a=2"; "b=1"]) None "" None in
  snd (calls back ["a"; "x"; "y"] h)
  = [Returned (Some "a=2"); Returned (Some "a=1"); Returned None].
Proof.
  intro h.
  apply (@new_session_backs_newest_first "a" ["x"; "y"] h
           ["a=1"; "a=2"; "b=1"]); reflexivity.
Defined.

(** ** [back] and [forward] undo each other *)

(** In a session, when the cursor is at least 1 and not beyond the end
    of the view, [back] followed by [forward] restores every field, and
    that [forward] returns what the view holds at the cursor
    ([undefined] when the cursor is at the end of the view). *)
Theorem back_then_forward
        (q q' : string) (h : ConsoleHistory) (v : Vector.t) :
  _hasSession h = true ->
  _filtered h = Some v ->
  1 <= _cursor h <= Vector.length v ->
  forward q' (state_of (back q h))
  = (h, Returned (Vector.at_ v (_cursor h))).
Proof.
  intros Hs Hf Hc. rewrite (back_in_session q h Hs Hf).
  unfold state_of. cbn [fst].
  rewrite (@forward_in_session q' _ v) by assumption.
  simpl _cursor. rewrite set_cursor_twice.
  replace (Z.max 0 (_cursor h - 1) + 1) with (_cursor h) by lia.
  rewrite Z.min_r by lia. now rewrite set_cursor_same.
Qed.

Lemma back_then_forward_witness :
  let h := mkConsoleHistory 2 true (Some ["a=1"; "a=2"; "b=1"]) None "a"
                            (Some ["a=1"; "a=2"]) in
  forward "y" (state_of (back "x" h)) = (h, Returned None).
Proof.
  intro h.
  apply (@back_then_forward "x" "y" h ["a=1"; "a=2"]).
  - reflexivity.
  - reflexivity.
  - unfold Vector.length. simpl. lia.
Defined.

(** In a session, when the cursor is not negative and below the end of
    the view, [forward] followed by [back] restores every field, and
    that [back] returns the entry of the view at the cursor. *)
Theorem forward_then_back
        (q q' : string) (h : ConsoleHistory) (v : Vector.t) :
  _hasSession h = true ->
  _filtered h = Some v ->
  0 <= _cursor h < Vector.length v ->
  back q' (state_of (forward q h))
  = (h, Returned (Vector.at_ v (_cursor h))).
Proof.
  intros Hs Hf Hc. rewrite (forward_in_session q h Hs Hf).
  unfold state_of. cbn [fst].
  rewrite (@back_in_session q' _ v) by assumption.
  simpl _cursor. rewrite set_cursor_twice.
  replace (Z.min (Vector.length v) (_cursor h + 1) - 1) with (_cursor h) by lia.
  rewrite Z.max_r by lia. now rewrite set_cursor_same.
Qed.

Lemma forward_then_back_witness :
  let h := mkConsoleHistory 0 true (Some ["a=1"; "a=2"; "b=1"]) None "a"
                            (Some ["a=1"; "a=2"]) in
  back "y" (state_of (forward "x" h)) = (h, Returned (Some "a=1")).
Proof.
  intro h.
  apply (@forward_then_back "x" "y" h ["a=1"; "a=2"]).
  - reflexivity.
  - reflexivity.
  - unfold Vector.length. simpl. lia.
Defined.

(** ** A pushed item is the first one [back] returns *)

Lemma back_is_last (l : Vector.t) (x : string) :
  Vector.back l = Some x -> exists l', l = l' ++ [x].
Proof.
  intros Hb. destruct (exists_last (l := l)) as (l' & y & ->).
  - intros ->. discriminate Hb.
  - exists l'. change (l' ++ [y]) with (Vector.pushBack l' y) in Hb.
    rewrite back_pushBack in Hb. now injection Hb as ->.
Qed.

Lemma back_filter (f : string -> bool) (l : Vector.t) (x : string) :
  Vector.back l = Some x -> f x = true ->
  Vector.back (List.filter f l) = Some x.
Proof.
  intros Hb Hf. destruct (back_is_last _ Hb) as (l' & ->).
  rewrite filter_app. simpl. rewrite Hf.
  apply (back_pushBack (List.filter f l') x).
Qed.

Lemma back_pushed (x : string) (l : Vector.t) :
  x <> "" -> Vector.back (pushed (Some x) l) = Some x.
Proof.
  intros Hx. unfold pushed. simpl truthy.
  destruct (String.eqb_spec x "") as [E | _]; [contradiction |].
  simpl negb. cbn [andb].
  destruct (strict_neq (Some x) (Vector.back l)) eqn:E.
  - apply back_pushBack.
  - simpl in E. destruct (Vector.back l) as [y |]; [| discriminate].
    apply negb_false_iff, String.eqb_eq in E. now subst.
Qed.

(** On a live object, after [push] of a non-empty item [x] (appended
    or ignored as a repetition of the last entry), a [back] whose
    placeholder [x] starts with returns [x]. *)
Theorem push_then_back_returns_item
        (x P : string) (h : ConsoleHistory) (l : Vector.t) :
  _history h = Some l ->
  x <> "" ->
  matches P x = true ->
  result_of (back P (state_of (push (Some x) h))) = Returned (Some x).
Proof.
  intros Hl Hx HP. rewrite (push_live (Some x) h Hl).
  unfold state_of. cbn [fst].
  rewrite (@back_start P _ (pushed (Some x) l)) by reflexivity.
  unfold result_of. cbn [snd]. f_equal.
  change (Vector.back (List.filter (matches P) (pushed (Some x) l)) = Some x).
  apply back_filter; [now apply back_pushed | exact HP].
Qed.

Lemma push_then_back_returns_item_witness :
  let h := mkConsoleHistory 0 true (Some ["a=1"; "a=2"; "b=1"]) None "a"
                            (Some ["a=1"; "a=2"]) in
  result_of (back "b" (state_of (push (Some "b=1") h)))
  = Returned (Some "b=1").
Proof.
  intro h.
  apply (@push_then_back_returns_item "b=1" "b" h ["a=1"; "a=2"; "b=1"]).
  - reflexivity.
  - discriminate.
  - reflexivity.
Defined.

(** On a live object, [push] of a non-empty item that differs from the
    last entry appends it: the Log is one entry longer and ends with
    the item, and the cursor is the new length. *)
Theorem push_appends
        (x : string) (h : ConsoleHistory) (l : Vector.t) :
  _history h = Some l ->
  x <> "" ->
  Vector.back l <> Some x ->
  _history (state_of (push (Some x) h)) = Some (l ++ [x])
  /\ _cursor (state_of (push (Some x) h)) = Vector.length l + 1.
Proof.
  intros Hl Hx Hlast. rewrite (push_live (Some x) h Hl).
  unfold state_of. cbn [fst _history _cursor].
  assert (Hp : pushed (Some x) l = l ++ [x]).
  { unfold pushed. simpl truthy.
    destruct (String.eqb_spec x "") as [E | _]; [contradiction |].
    simpl. destruct (Vector.back l) as [y |]; [| reflexivity].
    destruct (String.eqb_spec x y) as [-> | _]; [congruence | reflexivity]. }
  rewrite Hp. split; [reflexivity |].
  unfold Vector.length. rewrite length_app. simpl. lia.
Qed.

Lemma push_appends_witness :
  let h := mkConsoleHistory 0 true (Some ["a=1"; "a=2"]) None "a"
                            (Some ["a=1"; "a=2"]) in
  _history (state_of (push (Some "b=1") h)) = Some ["a=1"; "a=2"; "b=1"]
  /\ _cursor (state_of (push (Some "b=1") h)) = 3.
Proof.
  intro h.
  apply (@push_appends "b=1" h ["a=1"; "a=2"]).
  - reflexivity.
  - discriminate.
  - discriminate.
Defined.

(** ** A new session after [reset] *)

(** On a live object with Log [l], whatever session was active before,
    the [back P] or [forward P] that follows [reset] captures [P] and
    rebuilds the view from [l]: [back] returns the newest entry that
    matches [P], [forward] returns [undefined]. *)
Theorem reset_then_new_session
        (P : string) (h : ConsoleHistory) (l : Vector.t) :
  _history h = Some l ->
  let v := List.filter (matches P) l in
  let hb := state_of (back P (state_of (reset h))) in
  let hf := state_of (forward P (state_of (reset h))) in
  _filtered hb = Some v /\ placeholder hb = P /\ _hasSession hb = true
  /\ result_of (back P (state_of (reset h))) = Returned (Vector.back v)
  /\ _filtered hf = Some v /\ placeholder hf = P /\ _hasSession hf = true
  /\ result_of (forward P (state_of (reset h))) = Returned None.
Proof.
  intros Hl v hb hf. subst hb hf. rewrite (reset_live h Hl).
  unfold state_of at 2 4 6 7 9 11 13 14. cbn [fst].
  rewrite (@back_start P _ l) by reflexivity.
  destruct (@forward_start_undefined P
              (mkConsoleHistory (Vector.length l) false (Some l) (_kernel h) ""
                                (_filtered h)) l eq_refl eq_refl)
    as (Hr & Hs & Hf & _).
  rewrite Hr, Hs, Hf. unfold placeholder.
  rewrite (@forward_start P _ l) by reflexivity.
  now repeat split.
Qed.

Lemma reset_then_new_session_witness :
  let h := mkConsoleHistory 0 true (Some ["a=1"; "a=2"; "b=1"]) None "a"
                            (Some ["a=1"]) in
  let v := ["b=1"] in
  let hb := state_of (back "b" (state_of (reset h))) in
  let hf := state_of (forward "b" (state_of (reset h))) in
  _filtered hb = Some v /\ placeholder hb = "b" /\ _hasSession hb = true
  /\ result_of (back "b" (state_of (reset h))) = Returned (Vector.back v)
  /\ _filtered hf = Some v /\ placeholder hf = "b" /\ _hasSession hf = true
  /\ result_of (forward "b" (state_of (reset h))) = Returned None.
Proof.
  intro h.
  apply (@reset_then_new_session "b" h ["a=1"; "a=2"; "b=1"]). reflexivity.
Defined.

(** ** An object that is never disposed never throws *)

Lemma step_live_ok (ev : event) (s : System) :
  (match ev with Dispose => false | _ => true end) = true ->
  live_ok (nav s) -> live_ok (nav (step ev s)).
Proof.
  intros Hev [(l & Hl) Hview].
  destruct ev as [newValue | | q | q | item | | i value | i];
    try discriminate Hev; simpl.
  - destruct (same_kernel newValue (_kernel (nav s))) eqn:E.
    + rewrite (setKernel_same _ _ E). split; eauto.
    + destruct newValue as [k |].
      * rewrite (setKernel_other _ _ E). simpl. split; eauto.
      * rewrite (setKernel_null _ E). simpl. split; simpl; eauto.
  - destruct (_hasSession (nav s)) eqn:Hs.
    + destruct (Hview eq_refl) as (v & Hv).
      rewrite (back_in_session q _ Hs Hv). split; simpl; eauto.
    + rewrite (back_start q _ Hs Hl). split; simpl; eauto.
  - destruct (_hasSession (nav s)) eqn:Hs.
    + destruct (Hview eq_refl) as (v & Hv).
      rewrite (forward_in_session q _ Hs Hv). split; simpl; eauto.
    + rewrite (forward_start q _ Hs Hl). split; simpl; eauto.
  - rewrite (push_live item _ Hl). split; simpl; [eauto | discriminate].
  - rewrite (reset_live _ Hl). split; simpl; [eauto | discriminate].
  - destruct (nth_error (pending s) i); simpl; [| split; eauto].
    rewrite onHistory_spec. split; simpl; eauto.
  - split; eauto.
Qed.

Lemma run_live_ok (evs : list event) :
  forall s : System,
    no_dispose evs = true -> live_ok (nav s) -> live_ok (nav (run evs s)).
Proof.
  induction evs as [| ev evs IH]; intros s Hevs Hlive; simpl in *.
  - exact Hlive.
  - apply andb_prop in Hevs as [Hev Hevs].
    apply IH; [exact Hevs |]. now apply step_live_ok.
Qed.

Lemma construct_live_ok (k : option Kernel) : live_ok (nav (construct k)).
Proof.
  destruct k; split; simpl; eauto; discriminate.
Qed.

(** From construction on, as long as [dispose] is not called, the
    object is not disposed and none of [back], [forward], [push] and
    [reset] throws, whatever the calls made and the replies received
    before. *)
Theorem never_throws_unless_disposed
        (k : option Kernel) (evs : list event) :
  no_dispose evs = true ->
  let h := nav (run evs (construct k)) in
  isDisposed h = false
  /\ (forall q, returns (result_of (back q h)))
  /\ (forall q, returns (result_of (forward q h)))
  /\ (forall item, returns (result_of (push item h)))
  /\ returns (result_of (reset h)).
Proof.
  intros Hevs h.
  destruct (run_live_ok evs (construct k) Hevs (construct_live_ok k))
    as [(l & Hl) Hview].
  fold h in Hl, Hview.
  split; [unfold isDisposed; now rewrite Hl |].
  split; [| split; [| split]].
  - intros q. destruct (_hasSession h) eqn:Hs.
    + destruct (Hview eq_refl) as (v & Hv).
      now rewrite (back_in_session q _ Hs Hv).
    + now rewrite (back_start q _ Hs Hl).
  - intros q. destruct (_hasSession h) eqn:Hs.
    + destruct (Hview eq_refl) as (v & Hv).
      now rewrite (forward_in_session q _ Hs Hv).
    + now rewrite (forward_start q _ Hs Hl).
  - intros item. now rewrite (push_live item _ Hl).
  - now rewrite (reset_live _ Hl).
Qed.

Lemma never_throws_unless_disposed_witness :
  let h := nav (run [Push (Some "a"); Back ""; SetKernel None;
                     Fulfil 0 [(1, 1, "x")]; Forward "q"; Reset]
                    (construct (Some 3%nat))) in
  isDisposed h = false
  /\ (forall q, returns (result_of (back q h)))
  /\ (forall q, returns (result_of (forward q h)))
  /\ (forall item, returns (result_of (push item h)))
  /\ returns (result_of (reset h)).
Proof.
  apply (@never_throws_unless_disposed (Some 3%nat)
           [Push (Some "a"); Back ""; SetKernel None;
            Fulfil 0 [(1, 1, "x")]; Forward "q"; Reset]).
  reflexivity.
Defined.

(** ** The placeholder outside of a session *)

Lemma step_placeholder (ev : event) (s : System) :
  _hasSession (nav s) = true \/ placeholder (nav s) = "" ->
  _hasSession (nav (step ev s)) = true \/ placeholder (nav (step ev s)) = "".
Proof.
  unfold placeholder. intros Hinv.
  destruct ev as [newValue | | q | q | item | | i value | i]; simpl.
  - destruct s as [[c b hist k p f] pend]; simpl in *.
    unfold setKernel, bind, get, put, ret; simpl.
    destruct (same_kernel newValue k); [exact Hinv |].
    destruct newValue; exact Hinv.
  - destruct s as [[c b [hist |] k p f] pend]; exact Hinv.
  - destruct s as [[c [] [hist |] k p [f |]] pend]; simpl in *; auto.
  - destruct s as [[c [] [hist |] k p [f |]] pend]; simpl in *; auto.
  - destruct (_history (nav s)) as [l |] eqn:Hl.
    + rewrite (push_live item _ Hl). now right.
    + destruct s as [[c b hist k p f] pend]; simpl in *; subst hist.
      destruct item as [x |]; [| exact Hinv].
      unfold push. simpl truthy.
      destruct (negb (String.eqb x "")); exact Hinv.
  - destruct (_history (nav s)) as [l |] eqn:Hl.
    + rewrite (reset_live _ Hl). now right.
    + destruct s as [[c b hist k p f] pend]; simpl in *; subst hist.
      exact Hinv.
  - destruct (nth_error (pending s) i); [| exact Hinv]. simpl.
    now rewrite onHistory_spec.
  - exact Hinv.
Qed.

(** Whatever happens to an object after its construction (use after
    [dispose] included), [placeholder] is the empty string whenever no
    session is active. *)
Theorem placeholder_empty_outside_session
        (k : option Kernel) (evs : list event) :
  _hasSession (nav (run evs (construct k))) = true
  \/ placeholder (nav (run evs (construct k))) = "".
Proof.
  assert (Hgen : forall evs s,
             _hasSession (nav s) = true \/ placeholder (nav s) = "" ->
             _hasSession (nav (run evs s)) = true
             \/ placeholder (nav (run evs s)) = "").
  { clear. induction evs as [| ev evs IH]; intros s Hinv; simpl.
    - exact Hinv.
    - apply IH. now apply step_placeholder. }
  apply Hgen. destruct k; now right.
Qed.

(** ** Binding the kernel that is bound already *)

Lemma same_kernel_refl (k : option Kernel) : same_kernel k k = true.
Proof. destruct k; simpl; [apply Nat.eqb_refl | reflexivity]. Qed.

(** Binding a kernel twice in a row is binding it once: the second
    assignment changes no field and issues no request. *)
Theorem setKernel_twice (k : option Kernel) (s : System) :
  step (SetKernel k) (step (SetKernel k) s) = step (SetKernel k) s.
Proof.
  assert (Hbound : _kernel (nav (step (SetKernel k) s)) = k).
  { simpl. destruct (same_kernel k (_kernel (nav s))) eqn:E.
    - rewrite (setKernel_same _ _ E). simpl.
      destruct k as [k |], (_kernel (nav s)) as [k0 |]; try discriminate E;
        [| reflexivity].
      simpl in E. apply Nat.eqb_eq in E. now subst.
    - destruct k as [k |].
      + now rewrite (setKernel_other _ _ E).
      + now rewrite (setKernel_null _ E). }
  set (s1 := step (SetKernel k) s) in *.
  simpl. rewrite setKernel_same by (rewrite Hbound; apply same_kernel_refl).
  now destruct s1.
Qed.

(** ** A session does not read the Log *)

Lemma back_set_history (q : string) (log : option Vector.t) (h : ConsoleHistory) :
  _hasSession h = true ->
  back q (set_history log h)
  = (set_history log (state_of (back q h)), result_of (back q h)).
Proof.
  intros Hs. destruct h as [c b hist k p [f |]]; simpl in Hs; subst b;
    reflexivity.
Qed.

Lemma forward_set_history (q : string) (log : option Vector.t) (h : ConsoleHistory) :
  _hasSession h = true ->
  forward q (set_history log h)
  = (set_history log (state_of (forward q h)), result_of (forward q h)).
Proof.
  intros Hs. destruct h as [c b hist k p [f |]]; simpl in Hs; subst b;
    reflexivity.
Qed.

(** While a session is active, [dispose] and the binding of [null]
    (which empties the Log) do not change what the next [back] and
    [forward] complete with: the session keeps its view and cursor. *)
Theorem session_survives_dispose_and_unbinding
        (q : string) (h : ConsoleHistory) :
  _hasSession h = true ->
  result_of (back q (state_of (dispose h))) = result_of (back q h)
  /\ result_of (forward q (state_of (dispose h))) = result_of (forward q h)
  /\ result_of (back q (state_of (setKernel None h))) = result_of (back q h)
  /\ result_of (forward q (state_of (setKernel None h)))
     = result_of (forward q h).
Proof.
  intros Hs.
  assert (Hd : state_of (dispose h) = set_history None h).
  { destruct h as [c b [hist |] k p f]; reflexivity. }
  rewrite Hd, back_set_history, forward_set_history by exact Hs.
  split; [reflexivity |]. split; [reflexivity |].
  destruct (same_kernel None (_kernel h)) eqn:E.
  - rewrite (setKernel_same _ _ E). now split.
  - rewrite (setKernel_null _ E).
    change (state_of (set_history (Some Vector.empty) (set_kernel None h),
                      Returned (@None Kernel)))
      with (set_history (Some Vector.empty) (set_kernel None h)).
    rewrite back_set_history, forward_set_history by exact Hs.
    rewrite back_set_kernel, forward_set_kernel. now split.
Qed.

Lemma session_survives_dispose_and_unbinding_witness :
  let h := mkConsoleHistory 2 true (Some ["a=1"; "a=2"; "b=1"]) (Some 1%nat)
                            "a" (Some ["a=1"; "a=2"]) in
  result_of (back "x" (state_of (dispose h))) = result_of (back "x" h)
  /\ result_of (forward "x" (state_of (dispose h))) = result_of (forward "x" h)
  /\ result_of (back "x" (state_of (setKernel None h))) = result_of (back "x" h)
  /\ result_of (forward "x" (state_of (setKernel None h)))
     = result_of (forward "x" h).
Proof.
  intro h.
  apply (@session_survives_dispose_and_unbinding "x" h). reflexivity.
Defined.

(** ** What a merged reply leaves in the Log *)

Lemma spec_dedup_clean (l : list string) :
  forall last : string,
    no_adjacent_dup l ->
    hd_error l <> Some last ->
    spec_dedup last l = l.
Proof.
  induction l as [| e rest IH]; intros last Hnd Hhd; simpl; [reflexivity |].
  destruct (String.eqb_spec e last) as [-> | _]; [now elim Hhd |].
  f_equal. destruct rest as [| y rest']; [reflexivity |].
  destruct Hnd as [Hne Hrest]. apply IH; [exact Hrest |].
  simpl. congruence.
Qed.

(** A reply whose inputs have no adjacent repetition and do not begin
    with the empty string becomes the Log as it is. *)
Theorem onHistory_stores_clean_reply (value : HistoryReply) (h : ConsoleHistory) :
  no_adjacent_dup (map input_of value) ->
  hd_error (map input_of value) <> Some "" ->
  _history (state_of (onHistory value h)) = Some (map input_of value).
Proof.
  intros Hnd Hhd. rewrite onHistory_spec. unfold state_of. simpl.
  now rewrite spec_dedup_clean.
Qed.

Lemma onHistory_stores_clean_reply_witness :
  _history (state_of (onHistory [(1, 1, "x"); (1, 2, ""); (1, 3, "x")] fresh))
  = Some ["x"; ""; "x"].
Proof.
  apply (@onHistory_stores_clean_reply
           [(1, 1, "x"); (1, 2, ""); (1, 3, "x")] fresh).
  - simpl. repeat split; discriminate.
  - simpl. discriminate.
Defined.

(** The Log a merge produces is reproduced by merging a reply whose
    inputs are that Log: fetching the same history again changes
    nothing. *)
Theorem onHistory_stable
        (value value' : HistoryReply) (h h' : ConsoleHistory) (l : Vector.t) :
  _history (state_of (onHistory value h)) = Some l ->
  map input_of value' = l ->
  _history (state_of (onHistory value' h')) = Some l.
Proof.
  rewrite !onHistory_spec. unfold state_of. simpl.
  intros [= <-] ->. f_equal. apply spec_dedup_clean.
  - apply no_adjacent_dup_spec_dedup.
  - destruct (spec_dedup "" (map input_of value)) as [| x rest] eqn:E;
      [discriminate |].
    simpl. intros [= ->]. now apply (spec_dedup_head _ E).
Qed.

Lemma onHistory_stable_witness :
  _history (state_of (onHistory [(2, 1, "x"); (2, 2, "y")]
                                (mkConsoleHistory 0 true None None "p" None)))
  = Some ["x"; "y"].
Proof.
  apply (@onHistory_stable [(1, 1, ""); (1, 2, "x"); (1, 3, "x"); (1, 4, "y")]
           [(2, 1, "x"); (2, 2, "y")] fresh
           (mkConsoleHistory 0 true None None "p" None) ["x"; "y"]);
    reflexivity.
Defined.

Lemma spec_dedup_bounds (entries : list string) :
  forall last : string,
    (List.length (spec_dedup last entries) <= List.length entries)%nat
    /\ incl (spec_dedup last entries) entries.
Proof.
  induction entries as [| e rest IH]; intros last; simpl.
  - split; [lia | apply incl_refl].
  - destruct (String.eqb e last).
    + destruct (IH last) as [Hlen Hin]. split; [lia |].
      now apply incl_tl.
    + destruct (IH e) as [Hlen Hin]. split; [simpl; lia |].
      apply incl_cons; [now left | now apply incl_tl].
Qed.

(** After a merge there is a Log; it does not begin with the empty
    string (inputs that are empty at the head of the reply are
    dropped), it has at most as many entries as the reply has records,
    each of its entries is the input of a record of the reply, and the
    cursor is at most the number of records. *)
Theorem onHistory_log_bounds (value : HistoryReply) (h : ConsoleHistory) :
  exists l,
    _history (state_of (onHistory value h)) = Some l
    /\ hd_error l <> Some ""
    /\ (List.length l <= List.length value)%nat
    /\ (forall x, In x l -> exists e, In e value /\ input_of e = x)
    /\ 0 <= _cursor (state_of (onHistory value h))
       <= Z.of_nat (List.length value).
Proof.
  rewrite onHistory_spec. unfold state_of. simpl.
  exists (spec_dedup "" (map input_of value)).
  destruct (spec_dedup_bounds (map input_of value) "") as [Hlen Hin].
  rewrite length_map in Hlen.
  split; [reflexivity |]. split; [| split; [exact Hlen | split]].
  - destruct (spec_dedup "" (map input_of value)) as [| x rest] eqn:E;
      [discriminate |].
    simpl. intros [= ->]. now apply (spec_dedup_head _ E).
  - intros x Hx. apply Hin, in_map_iff in Hx as (e & He & Hine).
    now exists e.
  - unfold Vector.length. lia.
Qed.

(** ** What [setFilter] selects *)

Lemma prefix_append (P : string) :
  forall entry : string,
    String.prefix P entry = true <-> exists rest, entry = String.append P rest.
Proof.
  induction P as [| a P' IH]; intros entry.
  - destruct entry; simpl; split; eauto.
  - destruct entry as [| b entry']; simpl.
    + split; [discriminate | intros (rest & Hrest); discriminate Hrest].
    + destruct (Ascii.ascii_dec a b) as [-> | Hne].
      * rewrite IH. split; intros (rest & Hrest); exists rest.
        -- now rewrite Hrest.
        -- now injection Hrest.
      * split; [discriminate |].
        intros (rest & Hrest). injection Hrest as Hab _. congruence.
Qed.

Lemma matches_append (P entry : string) :
  matches P entry = true <-> exists rest, entry = String.append P rest.
Proof.
  rewrite matches_starts_with. unfold starts_with.
  rewrite <- String.prefix_correct. apply prefix_append.
Qed.

(** On a live object with Log [l], [setFilter P] returns, writes the
    filtered vector only, and the vector holds exactly the entries of
    [l] of the form [P] followed by something (possibly nothing), in
    the order and with the repetitions they have in [l]. *)
Theorem setFilter_selects_prefixed
        (P : string) (h : ConsoleHistory) (l : Vector.t) :
  _history h = Some l ->
  exists v,
    setFilter P h = (set_filtered (Some v) h, Returned tt)
    /\ v = List.filter (matches P) l
    /\ (forall e, In e v <-> In e l /\ exists rest, e = String.append P rest)
    /\ (forall e, count_occ string_dec v e
                  = if matches P e then count_occ string_dec l e else 0%nat).
Proof.
  intros Hl. exists (List.filter (matches P) l).
  split; [| split; [reflexivity | split]].
  - unfold setFilter, bind, deref, put. now rewrite Hl.
  - intros e. rewrite filter_In, matches_append. reflexivity.
  - intros e. clear Hl. induction l as [| x l IH]; simpl.
    + now destruct (matches P e).
    + destruct (string_dec x e) as [-> | Hne].
      * destruct (matches P e) eqn:E; simpl.
        -- destruct (string_dec e e); [| contradiction].
           rewrite IH. reflexivity.
        -- rewrite IH. reflexivity.
      * destruct (matches P x); simpl.
        -- destruct (string_dec x e); [contradiction |]. exact IH.
        -- exact IH.
Qed.

Lemma setFilter_selects_prefixed_witness :
  let h := mkConsoleHistory 3 false (Some ["a=1"; "b=1"; "a=1"]) None "" None in
  exists v,
    setFilter "a" h = (set_filtered (Some v) h, Returned tt)
    /\ v = List.filter (matches "a") ["a=1"; "b=1"; "a=1"]
    /\ (forall e, In e v <->
                  In e ["a=1"; "b=1"; "a=1"]
                  /\ exists rest, e = String.append "a" rest)
    /\ (forall e, count_occ string_dec v e
                  = if matches "a" e
                    then count_occ string_dec ["a=1"; "b=1"; "a=1"] e
                    else 0%nat).
Proof.
  intro h.
  apply (@setFilter_selects_prefixed "a" h ["a=1"; "b=1"; "a=1"]).
  reflexivity.
Defined.
